(** * sado-connect: wallet session orchestration

    A shallow embedding of the two stateful pieces of the repository:

    - the connect flows of the [SelectWalletModal] component
      ([onError], [onConnectUnisatWallet], [onConnectXverseWallet] and the
      reconnect-on-load effect), and
    - the [useSignMessage] hook ([signMsg]).

    JavaScript code is embedded in a state-and-exception monad: the state is
    everything the component can observe or change (provider state, React
    state, the listener registry of the injected wallet object, opened
    windows, the console), and a computation either completes normally or
    throws.  Calls into the wallet SDK are the only inputs: their outcome is
    passed in as an argument and the call itself is recorded in the state. *)

From Stdlib Require Import String List Bool Arith Lia.
Import ListNotations.
Open Scope string_scope.

Set Implicit Arguments.

(** ** JavaScript values that cross the embedding *)

Inductive Wallet := UNISAT | XVERSE.

Definition Wallet_eqb (a b : Wallet) : bool :=
  match a, b with
  | UNISAT, UNISAT | XVERSE, XVERSE => true
  | _, _ => false
  end.

Definition Network := string.

(** What [instanceof] can tell about a thrown value. *)
Inductive ErrorClass :=
| BrowserWalletNotInstalledError
| BrowserWalletRequestCancelledByUserError
| OtherError      (* any other Error instance *)
| NotAnError.     (* a thrown value that is no Error at all *)

(** A thrown value other than undefined and null, by what the code observes
    of it: [err instanceof C], [err.message] ([None] when undefined) and
    [String(err)]. *)
Record Thrown := {
  instance_of : ErrorClass;
  message : option string;
  toString : string
}.

(** [e.message]. *)
Definition message_of (e : Thrown) : option string := message e.

(** [Error.prototype.toString]. *)
Definition Error_toString (name msg : string) : string :=
  if (name =? "")%string then msg
  else if (msg =? "")%string then name
  else name ++ ": " ++ msg.

(** An Error instance of class [c] with the given [name] and [message]. *)
Definition error_instance (c : ErrorClass) (name msg : string) : Thrown :=
  {| instance_of := c; message := Some msg; toString := Error_toString name msg |}.

(** [new Error(msg)]. *)
Definition new_Error (msg : string) : Thrown :=
  error_instance OtherError "Error" msg.

(** The TypeError of a property read on [undefined] (V8 wording). *)
Definition TypeError_undefined (prop : string) : Thrown :=
  error_instance OtherError "TypeError"
    ("Cannot read properties of undefined (reading '" ++ prop ++ "')").


(** The two values that have no properties: reading [err.message] on them
    throws. *)
Inductive Nullish := js_undefined | js_null.

(** Whatever a [throw] or a rejected promise carries. *)
Inductive Exception :=
| Value (t : Thrown)
| NullishValue (n : Nullish).

Coercion Value : Thrown >-> Exception.

(** The TypeError of a property read on undefined or on null (V8 wording). *)
Definition TypeError_nullish (n : Nullish) (prop : string) : Thrown :=
  match n with
  | js_undefined => TypeError_undefined prop
  | js_null =>
      error_instance OtherError "TypeError"
        ("Cannot read properties of null (reading '" ++ prop ++ "')")
  end.

(** ** The state-and-exception monad *)

Inductive Completion (A : Type) :=
| Normal (a : A)
| Throw (e : Exception).

Arguments Throw {A} e.

Definition Js (S A : Type) : Type := S -> Completion A * S.

Definition ret {S A : Type} (a : A) : Js S A := fun s => (Normal a, s).

Definition bind {S A B : Type} (m : Js S A) (k : A -> Js S B) : Js S B :=
  fun s =>
    match m s with
    | (Normal a, s') => k a s'
    | (Throw e, s') => (Throw e, s')
    end.

Definition throw {S A : Type} (e : Exception) : Js S A :=
  fun s => (Throw e, s).

(** [try { body } catch (e) { handler e }]: effects of [body] up to the throw
    are kept. *)
Definition try_catch {S A : Type} (body : Js S A)
  (handler : Exception -> Js S A) : Js S A :=
  fun s =>
    match body s with
    | (Normal a, s') => (Normal a, s')
    | (Throw e, s') => handler e s'
    end.

Definition gets {S A : Type} (f : S -> A) : Js S A := fun s => (Normal (f s), s).

Definition modify {S : Type} (f : S -> S) : Js S unit := fun s => (Normal tt, f s).

(** A call to an async function whose promise is neither awaited nor
    returned: its effects happen, its result is dropped, and a rejection
    reaches nobody. *)
Definition detached {S A : Type} (m : Js S A) : Js S unit :=
  fun s => (Normal tt, snd (m s)).

Declare Scope js_scope.
Delimit Scope js_scope with js.
Notation "x <- m ;; k" := (bind m (fun x => k))
  (at level 61, m at next level, right associativity) : js_scope.
Notation "m ;; k" := (bind m (fun _ => k))
  (at level 61, right associativity) : js_scope.

(** An entry of the address list a wallet SDK returns. *)
Record WalletAddress := {
  wa_address : string;
  wa_publicKey : string;
  wa_format : string
}.

(** Outcome of an awaited [getAddresses] promise: it resolves (possibly to
    null, which the flows test for) or rejects. *)
Inductive AdapterOutcome :=
| Resolves (r : option (list WalletAddress))
| Rejects (e : Exception).

(** ** SelectWalletModal *)

Module SelectWalletModal.

(** The [{ordinals, payments}] objects handed to the provider's setters.
    The empty string stands for an empty field. *)
Record BiAddress := { ordinals : string; payments : string }.

(** Modelled from the spec: the provider behind [useOrdConnect] is not under
    src/.  The Identity Store of section 3 holds the connected wallet kind,
    the network and the identity; the component reads [address], [publicKey]
    and [format] and writes each through its setter with one
    [{ordinals, payments}] object, so each is held as such an object, or
    [None] for null. *)
Record Store := {
  address : option BiAddress;
  publicKey : option BiAddress;
  format : option BiAddress;
  wallet : option Wallet;
  network : Network
}.

(** Modelled from the spec: the setters write the given value to the store
    (section 4.2 step 4). *)
Definition updateAddress (b : BiAddress) (st : Store) : Store :=
  {| address := Some b; publicKey := publicKey st; format := format st;
     wallet := wallet st; network := network st |}.

Definition updatePublicKey (b : BiAddress) (st : Store) : Store :=
  {| address := address st; publicKey := Some b; format := format st;
     wallet := wallet st; network := network st |}.

Definition updateFormat (b : BiAddress) (st : Store) : Store :=
  {| address := address st; publicKey := publicKey st; format := Some b;
     wallet := wallet st; network := network st |}.

Definition updateWallet (k : Wallet) (st : Store) : Store :=
  {| address := address st; publicKey := publicKey st; format := format st;
     wallet := Some k; network := network st |}.

(** Modelled from the spec: the provider's [disconnectWallet] is not under
    src/; section 4.2 says it clears the Identity Store: the identity becomes
    the empty one of section 3 and no wallet is connected.  Two points are
    fixed here that the component cannot decide, and no statement below
    rests on either: the network is kept (the component is given no setter
    for it and reads it for every SDK call), and the deregistration of the
    active listener that section 4.2 also gives to the disconnect is left
    out (the listener closures are local to the connect flow and are never
    handed to the provider).  What is stated below about a failed connect
    concerns the identity fields, the connected wallet, the error message,
    the log, the opened windows and the modal. *)
Definition disconnectWallet_store (st : Store) : Store :=
  {| address := None; publicKey := None; format := None;
     wallet := None; network := network st |}.

(** The six identity fields of section 3, read off the store. *)
Definition slot_ordinals (s : option BiAddress) : string :=
  match s with Some b => ordinals b | None => "" end.
Definition slot_payments (s : option BiAddress) : string :=
  match s with Some b => payments b | None => "" end.

Definition paymentAddress (st : Store) := slot_payments (address st).
Definition paymentPublicKey (st : Store) := slot_payments (publicKey st).
Definition paymentFormat (st : Store) := slot_payments (format st).
Definition ordinalAddress (st : Store) := slot_ordinals (address st).
Definition ordinalPublicKey (st : Store) := slot_ordinals (publicKey st).
Definition ordinalFormat (st : Store) := slot_ordinals (format st).

Definition identity_fields (st : Store) : list string :=
  [paymentAddress st; paymentPublicKey st; paymentFormat st;
   ordinalAddress st; ordinalPublicKey st; ordinalFormat st].

Definition populated (s : string) : bool := negb (s =? "")%string.

Definition populated_count (st : Store) : nat :=
  length (filter populated (identity_fields st)).


Definition store_empty (st : Store) : Prop :=
  populated_count st = 0 /\ wallet st = None.

(** JavaScript truthiness of a provider value: an object reference is truthy
    whatever its fields hold, null is not. *)
Definition truthy (s : option BiAddress) : bool :=
  match s with Some _ => true | None => false end.

(** A function object, told apart by reference. *)
Definition Closure := nat.

Inductive AdapterCall :=
| GetUnisatAddresses (net : Network) (readOnly : option bool)
| GetXverseAddresses (net : Network).

(** Everything the component reads or writes. *)
Record World := {
  store : Store;                  (* useOrdConnect() *)
  errorMessage : string;          (* useState("") *)
  window_unisat : option (list Closure);
    (* None: window.unisat is undefined; Some ls: its accountsChanged
       listeners, oldest first *)
  closures : nat;                 (* function objects created so far *)
  isOpen : bool;                  (* the modal, owned by the parent *)
  window_opened : list string;    (* window.open(url, ...) *)
  console_error : list (Wallet * Thrown);
    (* console.error(`Error while connecting to ${walletProvider} wallet`, err) *)
  adapter_calls : list AdapterCall
}.

Definition with_store (f : Store -> Store) (w : World) : World :=
  {| store := f (store w); errorMessage := errorMessage w;
     window_unisat := window_unisat w; closures := closures w;
     isOpen := isOpen w; window_opened := window_opened w;
     console_error := console_error w; adapter_calls := adapter_calls w |}.

Definition with_errorMessage (m : string) (w : World) : World :=
  {| store := store w; errorMessage := m;
     window_unisat := window_unisat w; closures := closures w;
     isOpen := isOpen w; window_opened := window_opened w;
     console_error := console_error w; adapter_calls := adapter_calls w |}.

Definition with_window_unisat (u : option (list Closure)) (w : World) : World :=
  {| store := store w; errorMessage := errorMessage w;
     window_unisat := u; closures := closures w;
     isOpen := isOpen w; window_opened := window_opened w;
     console_error := console_error w; adapter_calls := adapter_calls w |}.

Definition with_closures (n : nat) (w : World) : World :=
  {| store := store w; errorMessage := errorMessage w;
     window_unisat := window_unisat w; closures := n;
     isOpen := isOpen w; window_opened := window_opened w;
     console_error := console_error w; adapter_calls := adapter_calls w |}.

Definition with_isOpen (b : bool) (w : World) : World :=
  {| store := store w; errorMessage := errorMessage w;
     window_unisat := window_unisat w; closures := closures w;
     isOpen := b; window_opened := window_opened w;
     console_error := console_error w; adapter_calls := adapter_calls w |}.

Definition with_window_opened (l : list string) (w : World) : World :=
  {| store := store w; errorMessage := errorMessage w;
     window_unisat := window_unisat w; closures := closures w;
     isOpen := isOpen w; window_opened := l;
     console_error := console_error w; adapter_calls := adapter_calls w |}.

Definition with_console_error (l : list (Wallet * Thrown)) (w : World) : World :=
  {| store := store w; errorMessage := errorMessage w;
     window_unisat := window_unisat w; closures := closures w;
     isOpen := isOpen w; window_opened := window_opened w;
     console_error := l; adapter_calls := adapter_calls w |}.

Definition with_adapter_calls (l : list AdapterCall) (w : World) : World :=
  {| store := store w; errorMessage := errorMessage w;
     window_unisat := window_unisat w; closures := closures w;
     isOpen := isOpen w; window_opened := window_opened w;
     console_error := console_error w; adapter_calls := l |}.

Local Open Scope js_scope.

(** *** Primitive effects *)

Definition setErrorMessage (m : string) : Js World unit :=
  modify (with_errorMessage m).

Definition disconnectWallet : Js World unit :=
  modify (with_store disconnectWallet_store).

Definition closeModal : Js World unit := modify (with_isOpen false).

Definition window_open (url : string) : Js World unit :=
  modify (fun w => with_window_opened (window_opened w ++ [url])%list w).

Definition console_log_error (walletProvider : Wallet) (err : Thrown)
  : Js World unit :=
  modify (fun w => with_console_error
                     (console_error w ++ [(walletProvider, err)])%list w).

(** [const listener = () => { ... }]: a function object of its own. *)
Definition new_closure : Js World Closure :=
  fun w => (Normal (closures w), with_closures (S (closures w)) w).

(** EventEmitter's removeListener: drops one registration of [l], the most
    recent one, and is a no-op when [l] is not registered. *)
Fixpoint remove_first (l : Closure) (ls : list Closure) : list Closure :=
  match ls with
  | [] => []
  | x :: ls' => if Nat.eqb x l then ls' else x :: remove_first l ls'
  end.

Definition remove_listener (l : Closure) (ls : list Closure) : list Closure :=
  rev (remove_first l (rev ls)).

(** [window.unisat.removeListener("accountsChanged", l)]. *)
Definition unisat_removeListener (l : Closure) : Js World unit :=
  fun w =>
    match window_unisat w with
    | None => (Throw (TypeError_undefined "removeListener"), w)
    | Some ls => (Normal tt, with_window_unisat (Some (remove_listener l ls)) w)
    end.

(** [window.unisat.addListener("accountsChanged", l)]. *)
Definition unisat_addListener (l : Closure) : Js World unit :=
  fun w =>
    match window_unisat w with
    | None => (Throw (TypeError_undefined "addListener"), w)
    | Some ls => (Normal tt, with_window_unisat (Some (ls ++ [l])%list) w)
    end.

Definition settle (out : AdapterOutcome)
  : Js World (option (list WalletAddress)) :=
  match out with
  | Resolves r => ret r
  | Rejects e => throw e
  end.

(** [await getUnisatAddresses(network, readOnly)], answered by [out]. *)
Definition getUnisatAddresses (out : AdapterOutcome) (net : Network)
  (readOnly : option bool) : Js World (option (list WalletAddress)) :=
  modify (fun w => with_adapter_calls
                     (adapter_calls w ++ [GetUnisatAddresses net readOnly])%list w) ;;
  settle out.

(** [await getXverseAddresses(network)], answered by [out]. *)
Definition getXverseAddresses (out : AdapterOutcome) (net : Network)
  : Js World (option (list WalletAddress)) :=
  modify (fun w => with_adapter_calls
                     (adapter_calls w ++ [GetXverseAddresses net])%list w) ;;
  settle out.

(** *** The component *)

Definition WALLET_CHROME_EXTENSION_URL (k : Wallet) : string :=
  match k with
  | UNISAT => "https://unisat.io/download"
  | XVERSE => "https://www.xverse.app/download"
  end.

(** [err.message ?? err.toString()]. *)
Definition message_or_toString (err : Thrown) : string :=
  match message err with
  | Some m => m
  | None => toString err
  end.

(** [err instanceof BrowserWalletNotInstalledError]; false for undefined
    and null. *)
Definition is_not_installed (err : Exception) : bool :=
  match err with
  | Value t =>
      match instance_of t with
      | BrowserWalletNotInstalledError => true
      | _ => false
      end
  | NullishValue _ => false
  end.

(** The argument [err.message ?? err.toString()] is evaluated before
    [setErrorMessage] is called: on undefined or null the property read
    throws and the rest of the handler is not run. *)
Definition onError (walletProvider : Wallet) (err : Exception)
  : Js World unit :=
  (if is_not_installed err
   then window_open (WALLET_CHROME_EXTENSION_URL walletProvider)
   else ret tt) ;;
  match err with
  | NullishValue n => throw (TypeError_nullish n "message")
  | Value t =>
      setErrorMessage (message_or_toString t) ;;
      console_log_error walletProvider t ;;
      disconnectWallet
  end.

(** The head of [onConnectUnisatWallet]: the listener closure of this
    invocation and the guarded attempt to deregister it. *)
Definition unisat_prologue : Js World Closure :=
  listener <- new_closure ;;
  try_catch (unisat_removeListener listener)
            (fun _ => ret tt) ;;
  ret listener.

(** The body of its second [try]. *)
Definition unisat_try (listener : Closure) (out : AdapterOutcome)
  (readOnly : option bool) : Js World bool :=
  setErrorMessage "" ;;
  net <- gets (fun w => network (store w)) ;;
  unisat <- getUnisatAddresses out net readOnly ;;
  match unisat with
  | None | Some [] =>
      disconnectWallet ;;
      throw (new_Error "Unisat via Ordit returned no addresses.")
  | Some (unisatWallet :: _) =>
      modify (with_store (updateAddress
        {| ordinals := wa_address unisatWallet;
           payments := wa_address unisatWallet |})) ;;
      modify (with_store (updatePublicKey
        {| ordinals := wa_publicKey unisatWallet;
           payments := wa_publicKey unisatWallet |})) ;;
      modify (with_store (updateWallet UNISAT)) ;;
      modify (with_store (updateFormat
        {| ordinals := wa_format unisatWallet;
           payments := wa_format unisatWallet |})) ;;
      unisat_addListener listener ;;
      closeModal ;;
      ret true
  end.

Definition onConnectUnisatWallet (out : AdapterOutcome) (readOnly : option bool)
  : Js World bool :=
  listener <- unisat_prologue ;;
  try_catch (unisat_try listener out readOnly)
            (fun err => onError UNISAT err ;; ret false).

Definition has_format (f : string) (walletAddress : WalletAddress) : bool :=
  (wa_format walletAddress =? f)%string.

(** The body of the [try] of [onConnectXverseWallet]. *)
Definition xverse_try (out : AdapterOutcome) : Js World bool :=
  setErrorMessage "" ;;
  net <- gets (fun w => network (store w)) ;;
  xverse <- getXverseAddresses out net ;;
  match xverse with
  | None | Some [] =>
      disconnectWallet ;;
      throw (new_Error "Xverse via Ordit returned no addresses.")
  | Some xverse =>
      match find (has_format "p2sh-p2wpkh") xverse,
            find (has_format "taproot") xverse with
      | Some p2sh, Some taproot =>
          modify (with_store (updateAddress
            {| ordinals := wa_address taproot;
               payments := wa_address p2sh |})) ;;
          modify (with_store (updatePublicKey
            {| ordinals := wa_publicKey taproot;
               payments := wa_publicKey p2sh |})) ;;
          modify (with_store (updateWallet XVERSE)) ;;
          modify (with_store (updateFormat
            {| ordinals := wa_format taproot;
               payments := wa_format p2sh |})) ;;
          closeModal ;;
          ret true
      | _, _ =>
          throw (new_Error
            "Xverse via Ordit did not return P2SH or Taproot addresses.")
      end
  end.

Definition onConnectXverseWallet (out : AdapterOutcome) : Js World bool :=
  try_catch (xverse_try out)
            (fun err => onError XVERSE err ;; ret false).

(** The flows up to, and without, their [catch] clause: a connect invocation
    fails with [e] when this throws [e]. *)
Definition unisat_attempt (out : AdapterOutcome) (readOnly : option bool)
  : Js World bool :=
  listener <- unisat_prologue ;;
  unisat_try listener out readOnly.

Definition xverse_attempt (out : AdapterOutcome) : Js World bool :=
  xverse_try out.

(** The errors the flows raise themselves, by their name in the spec. *)
Definition EmptyResponse (k : Wallet) : Thrown :=
  match k with
  | UNISAT => new_Error "Unisat via Ordit returned no addresses."
  | XVERSE => new_Error "Xverse via Ordit returned no addresses."
  end.

Definition IncompleteAddressSet : Thrown :=
  new_Error "Xverse via Ordit did not return P2SH or Taproot addresses.".

(** The address list has no entry of format [f]. *)
Definition lacks_format (f : string) (l : list WalletAddress) : Prop :=
  forall a, In a l -> wa_format a <> f.

(** Modelled from the spec: utils/unisat is not under src/.  Section 4.2: a
    bounded wait that tells whether the extension became ready; [ready] is
    its answer, false on timeout. *)
Definition waitForUnisatExtensionReady (ready : bool) : Js World bool :=
  ret ready.

Definition connectToUnisatWalletOnLoad (ready : bool) (out : AdapterOutcome)
  : Js World unit :=
  isUnisatExtensionReady <- waitForUnisatExtensionReady ready ;;
  if negb isUnisatExtensionReady
  then disconnectWallet
  else detached (onConnectUnisatWallet out (Some true)).

(** [wallet === Wallet.UNISAT && address && publicKey && format]. *)
Definition reconnect_guard (st : Store) : bool :=
  match wallet st with Some k => Wallet_eqb k UNISAT | None => false end
  && truthy (address st) && truthy (publicKey st) && truthy (format st).

(** The mount effect: [useEffect(() => { ... }, [])]. *)
Definition useEffect_onLoad (ready : bool) (out : AdapterOutcome)
  : Js World unit :=
  st <- gets store ;;
  if reconnect_guard st
  then connectToUnisatWalletOnLoad ready out
  else ret tt.

(** An accountsChanged event: the wallet object calls every listener
    registered at that moment; each one is [() => { onConnectUnisatWallet(); }],
    which does not await the connect.  The result is the number of callbacks
    invoked. *)
Fixpoint run_listeners (out : AdapterOutcome) (ls : list Closure)
  : Js World unit :=
  match ls with
  | [] => ret tt
  | _ :: ls' =>
      detached (onConnectUnisatWallet out None) ;; run_listeners out ls'
  end.

Definition emit_accountsChanged (out : AdapterOutcome) : Js World nat :=
  fun w =>
    match window_unisat w with
    | None => (Normal 0, w)
    | Some ls => (run_listeners out ls ;; ret (length ls)) w
    end.

(** The listener registry as a number. *)
Definition listener_count (w : World) : nat :=
  match window_unisat w with Some ls => length ls | None => 0 end.

(** Closures in the registry were all created earlier. *)
Definition registry_wf (w : World) : Prop :=
  match window_unisat w with
  | Some ls => Forall (fun l => l < closures w) ls
  | None => True
  end.




(** A freshly mounted component on a page where the extension is injected. *)
Definition mounted (st : Store) : World :=
  {| store := st; errorMessage := ""; window_unisat := Some [];
     closures := 0; isOpen := false; window_opened := [];
     console_error := []; adapter_calls := [] |}.

Definition no_session (net : Network) : Store :=
  {| address := None; publicKey := None; format := None;
     wallet := None; network := net |}.

(** The identity a Unisat connect writes for the entry it keeps. *)
Definition unisat_identity (a : WalletAddress) (net : Network) : Store :=
  {| address := Some {| ordinals := wa_address a; payments := wa_address a |};
     publicKey :=
       Some {| ordinals := wa_publicKey a; payments := wa_publicKey a |};
     format := Some {| ordinals := wa_format a; payments := wa_format a |};
     wallet := Some UNISAT;
     network := net |}.

(** The identity an Xverse connect writes for the two entries it keeps. *)
Definition xverse_identity (p2sh taproot : WalletAddress) (net : Network)
  : Store :=
  {| address :=
       Some {| ordinals := wa_address taproot; payments := wa_address p2sh |};
     publicKey :=
       Some {| ordinals := wa_publicKey taproot;
               payments := wa_publicKey p2sh |};
     format :=
       Some {| ordinals := wa_format taproot; payments := wa_format p2sh |};
     wallet := Some XVERSE;
     network := net |}.

(** *** What the component renders *)

(** The props of a [WalletButton]; [wb_onConnect] names the flow passed as
    [onConnect].  The icon and the [setErrorMessage] setter, which both
    buttons get alike, are left out. *)
Record WalletButtonProps := {
  wb_name : string;
  wb_info : string;
  wb_onConnect : Wallet;
  wb_isDisabled : option bool;      (* None: the prop is not passed *)
  wb_isMobileDevice : bool
}.

Inductive PanelContent :=
| WalletButtons (buttons : list WalletButtonProps)
| UnsupportedBrowserMessage (text : string).

Record Panel := {
  panel_title : string;
  panel_content : PanelContent;
  panel_error_message : string
}.

(** [!disableMobile], for the optional prop. *)
Definition not_disableMobile (disableMobile : option bool) : bool :=
  match disableMobile with Some true => false | _ => true end.

(** [const isSupportedDevice = !disableMobile || !isMobile]; [isMobile] is
    the answer of [isMobileUserAgent()]. *)
Definition isSupportedDevice (disableMobile : option bool) (isMobile : bool)
  : bool :=
  not_disableMobile disableMobile || negb isMobile.

(** The [Dialog.Panel] of the returned element. *)
Definition render_panel (disableMobile : option bool) (isMobile : bool)
  (w : World) : Panel :=
  {| panel_title :=
       if isSupportedDevice disableMobile isMobile
       then "Choose wallet to connect"
       else "Unsupported device";
     panel_content :=
       if isSupportedDevice disableMobile isMobile
       then WalletButtons
              ((if negb isMobile
                then [{| wb_name := "Unisat Wallet";
                         wb_info := "Coming soon on mobile browsing";
                         wb_onConnect := UNISAT;
                         wb_isDisabled := Some isMobile;
                         wb_isMobileDevice := isMobile |}]
                else []) ++
               [{| wb_name := "Xverse";
                   wb_info := "Available on Xverse app";
                   wb_onConnect := XVERSE;
                   wb_isDisabled := None;
                   wb_isMobileDevice := isMobile |}])%list
       else UnsupportedBrowserMessage
              "This website does not support mobile devices.";
     panel_error_message := errorMessage w |}.

(** The buttons of a panel, and the wallets they connect. *)
Definition panel_buttons (p : Panel) : list WalletButtonProps :=
  match panel_content p with
  | WalletButtons buttons => buttons
  | UnsupportedBrowserMessage _ => []
  end.

Definition offered_wallets (p : Panel) : list Wallet :=
  map wb_onConnect (panel_buttons p).

End SelectWalletModal.

(** ** useSignMessage *)

Module UseSignMessage.

Section Hook.

(** The provider behind [useOrdContext] is not under src/: the type of the
    [publicKey] and [format] it serves is a parameter, together with its
    JavaScript truthiness, which is all [signMsg] asks of them. *)
Variable Val : Type.
Variable truthy : Val -> bool.

Record OrdContext := {
  network : Network;
  wallet : option Wallet;
  publicKey : Val;
  format : Val
}.

(** The argument object of the signing primitive. *)
Record SignMessageParams := {
  sp_address : string;
  sp_wallet : option Wallet;
  sp_message : string;
  sp_network : Network
}.

(** Outcome of the awaited signing primitive. *)
Inductive SignOutcome :=
| Signed (signature : string)
| Failed (e : Exception).

Record Hook := {
  context : OrdContext;            (* useOrdContext() *)
  error : option string;           (* useState(null) *)
  isLoading : bool;                (* useState(false) *)
  signMessage_calls : list SignMessageParams
}.

Definition setError (m : option string) : Js Hook unit :=
  modify (fun h => {| context := context h; error := m;
                      isLoading := isLoading h;
                      signMessage_calls := signMessage_calls h |}).

Definition setIsLoading (b : bool) : Js Hook unit :=
  modify (fun h => {| context := context h; error := error h;
                      isLoading := b;
                      signMessage_calls := signMessage_calls h |}).

(** [await signMessage({address, wallet, message, network})], answered by
    [out]. *)
Definition signMessage (out : SignOutcome) (p : SignMessageParams)
  : Js Hook string :=
  fun h =>
    let h' := {| context := context h; error := error h;
                 isLoading := isLoading h;
                 signMessage_calls := (signMessage_calls h ++ [p])%list |} in
    match out with
    | Signed s => (Normal s, h')
    | Failed e => (Throw e, h')
    end.

Local Open Scope js_scope.

Definition signMsg (out : SignOutcome) (address message : string)
  : Js Hook string :=
  setIsLoading true ;;
  try_catch
    (setError None ;;
     ctx <- gets context ;;
     (if negb (truthy (format ctx)) || negb (truthy (publicKey ctx))
      then throw (new_Error "No wallet is connected")
      else ret tt) ;;
     signedMessage <- signMessage out
       {| sp_address := address; sp_wallet := wallet ctx;
          sp_message := message; sp_network := network ctx |} ;;
     setIsLoading false ;;
     ret signedMessage)
    (fun e =>
       match e with
       | NullishValue n => throw (TypeError_nullish n "message")
       | Value t =>
           setError (message_of t) ;;
           setIsLoading false ;;
           throw (new_Error (toString t))
       end).

End Hook.

End UseSignMessage.

(** The error of a [signMsg] call without a connected identity. *)
Definition NoWalletConnected : Thrown := new_Error "No wallet is connected".

(** A hook over string-valued [publicKey] and [format]. *)
Definition string_truthy (s : string) : bool := negb (s =? "")%string.

Definition idle_hook (pk fmt : string) (k : option Wallet)
  : UseSignMessage.Hook string :=
  {| UseSignMessage.context :=
       {| UseSignMessage.network := "mainnet"; UseSignMessage.wallet := k;
          UseSignMessage.publicKey := pk; UseSignMessage.format := fmt |};
     UseSignMessage.error := None;
     UseSignMessage.isLoading := false;
     UseSignMessage.signMessage_calls := [] |}.

(** * Properties of the connect flows *)

Unset Implicit Arguments.

Import SelectWalletModal.

#[local] Arguments find : simpl never.
#[local] Arguments is_not_installed : simpl never.

Ltac js_unfold :=
  unfold onConnectUnisatWallet, onConnectXverseWallet, unisat_attempt,
    xverse_attempt, unisat_prologue, unisat_try, xverse_try, onError,
    connectToUnisatWalletOnLoad, useEffect_onLoad,
    waitForUnisatExtensionReady, getUnisatAddresses, getXverseAddresses,
    settle, unisat_removeListener, unisat_addListener, new_closure,
    setErrorMessage, disconnectWallet, closeModal, window_open,
    console_log_error, detached, bind, try_catch, ret, throw, gets,
    modify in *.

Ltac js_run := js_unfold; cbn in *.

(** Case split on the tests the flows branch on. *)
Ltac js_case :=
  match goal with
  | |- context [find ?f ?l] => destruct (find f l) eqn:?
  | |- context [is_not_installed ?e] =>
      let b := eval cbv in (is_not_installed e) in
      match b with
      | true => change (is_not_installed e) with true
      | false => change (is_not_installed e) with false
      end
  | |- context [is_not_installed ?e] => destruct (is_not_installed e) eqn:?
  | |- context [match window_unisat ?w with _ => _ end] =>
      destruct (window_unisat w) eqn:?
  end; cbn in *.

(** ** The listener registry *)

Lemma remove_first_absent (l : Closure) (ls : list Closure) :
  ~ In l ls -> remove_first l ls = ls.
Proof.
  induction ls as [|x ls IH]; cbn; intros Hnot; [reflexivity|].
  destruct (Nat.eqb_spec x l) as [->|Hne].
  - exfalso; apply Hnot; now left.
  - f_equal; apply IH; intros Hin; apply Hnot; now right.
Qed.

Lemma remove_listener_absent (l : Closure) (ls : list Closure) :
  ~ In l ls -> remove_listener l ls = ls.
Proof.
  intros Hnot; unfold remove_listener.
  rewrite remove_first_absent.
  - apply rev_involutive.
  - intros Hin; apply Hnot; now apply in_rev.
Qed.

Lemma fresh_closure_absent (n : nat) (ls : list Closure) :
  Forall (fun l => l < n) ls -> ~ In n ls.
Proof.
  intros Hall Hin.
  rewrite Forall_forall in Hall.
  specialize (Hall n Hin); lia.
Qed.

(** The deregistration at the head of the flow never finds its listener:
    the closure was created one line earlier. *)
Lemma unisat_prologue_keeps_registry (w : World) :
  registry_wf w ->
  unisat_prologue w = (Normal (closures w), with_closures (S (closures w)) w).
Proof.
  unfold registry_wf; intros Hwf; js_run.
  destruct (window_unisat w) as [ls|] eqn:Hu; cbn; [|reflexivity].
  rewrite remove_listener_absent by now apply fresh_closure_absent.
  unfold with_window_unisat, with_closures; cbn; now rewrite Hu.
Qed.

Lemma unisat_prologue_normal (w : World) :
  exists l w1, unisat_prologue w = (Normal l, w1) /\
               store w1 = store w /\ errorMessage w1 = errorMessage w /\
               isOpen w1 = isOpen w /\ window_opened w1 = window_opened w /\
               console_error w1 = console_error w /\
               adapter_calls w1 = adapter_calls w /\
               (window_unisat w = None <-> window_unisat w1 = None).
Proof.
  js_run.
  destruct (window_unisat w) as [ls|] eqn:Hu; cbn;
    do 2 eexists; (split; [reflexivity|]); cbn; rewrite ?Hu;
    repeat split; intros; congruence.
Qed.



(** The callbacks of an event are not awaited: the event always runs to its
    end. *)
Lemma run_listeners_normal out (ls : list Closure) (w : World) :
  fst (run_listeners out ls w) = Normal tt.
Proof.
  revert w; induction ls as [|l ls IH]; intros w; cbn; [reflexivity|].
  unfold bind, detached; apply IH.
Qed.

Lemma emit_accountsChanged_count out (w : World) :
  fst (emit_accountsChanged out w) = Normal (listener_count w).
Proof.
  unfold emit_accountsChanged, listener_count.
  destruct (window_unisat w) as [ls|]; [|reflexivity].
  unfold bind, ret.
  pose proof (run_listeners_normal out ls w) as Hn.
  destruct (run_listeners out ls w) as [c w1]; cbn in Hn; now subst c.
Qed.

(** What a Unisat connect does when the SDK returns at least one entry and
    the wallet object is there. *)
Lemma onConnectUnisatWallet_success a r readOnly (w : World) ls :
  window_unisat w = Some ls ->
  let c := onConnectUnisatWallet (Resolves (Some (a :: r))) readOnly w in
  fst c = Normal true /\
  store (snd c) =
    {| address := Some {| ordinals := wa_address a; payments := wa_address a |};
       publicKey :=
         Some {| ordinals := wa_publicKey a; payments := wa_publicKey a |};
       format := Some {| ordinals := wa_format a; payments := wa_format a |};
       wallet := Some UNISAT;
       network := network (store w) |} /\
  window_unisat (snd c) =
    Some (remove_listener (closures w) ls ++ [closures w])%list /\
  closures (snd c) = S (closures w) /\
  errorMessage (snd c) = "" /\
  isOpen (snd c) = false /\
  window_opened (snd c) = window_opened w /\
  console_error (snd c) = console_error w.
Proof.
  intros Hu; js_run; rewrite Hu; cbn.
  repeat split; reflexivity.
Qed.

(** The registry invariant holds along every connect that goes through. *)
Lemma onConnectUnisatWallet_registry_wf a r readOnly (w : World) :
  registry_wf w ->
  registry_wf
    (snd (onConnectUnisatWallet (Resolves (Some (a :: r))) readOnly w)).
Proof.
  intros Hwf.
  destruct (window_unisat w) as [ls|] eqn:Hu.
  - destruct (onConnectUnisatWallet_success a r readOnly w ls Hu)
      as (_ & _ & Hl & Hc & _).
    unfold registry_wf in *; rewrite Hl, Hc; rewrite Hu in Hwf.
    rewrite remove_listener_absent by now apply fresh_closure_absent.
    apply Forall_app; split.
    + eapply Forall_impl; [|exact Hwf]; cbn; intros; lia.
    + constructor; [lia | constructor].
  - unfold registry_wf.
    replace (window_unisat
               (snd (onConnectUnisatWallet (Resolves (Some (a :: r)))
                       readOnly w)))
      with (@None (list Closure)); [exact I|].
    js_run; rewrite Hu; cbn; rewrite Hu; cbn.
    repeat js_case; now rewrite Hu.
Qed.

Lemma mounted_registry_wf (st : Store) : registry_wf (mounted st).
Proof. unfold registry_wf; cbn; constructor. Qed.

(** C1 (the code breaks it).  Two sequential successful Unisat connects leave
    two more account-change listeners registered, not one: the
    [removeListener] call at the head of the flow is given the closure
    created on the line before it, which is never the one registered by the
    previous connect, so nothing is deregistered, and a following
    accountsChanged event invokes both (and every older) callback. *)
Theorem second_connect_keeps_first_listener
  (w : World) (ls : list Closure) a1 r1 ro1 a2 r2 ro2 :
  window_unisat w = Some ls ->
  registry_wf w ->
  let c1 := onConnectUnisatWallet (Resolves (Some (a1 :: r1))) ro1 w in
  let c2 := onConnectUnisatWallet (Resolves (Some (a2 :: r2))) ro2 (snd c1) in
  fst c1 = Normal true /\
  fst c2 = Normal true /\
  window_unisat (snd c2)
    = Some (ls ++ [closures w; S (closures w)])%list /\
  listener_count (snd c2) = length ls + 2 /\
  forall out,
    fst (emit_accountsChanged out (snd c2)) = Normal (length ls + 2).
Proof.
  intros Hu Hwf c1 c2.
  destruct (onConnectUnisatWallet_success a1 r1 ro1 w ls Hu)
    as (Hr1 & _ & Hu1 & Hc1 & _).
  fold c1 in Hr1, Hu1, Hc1.
  assert (Hls : ~ In (closures w) ls).
  { unfold registry_wf in Hwf; rewrite Hu in Hwf.
    now apply fresh_closure_absent. }
  rewrite (remove_listener_absent _ _ Hls) in Hu1.
  destruct (onConnectUnisatWallet_success a2 r2 ro2 (snd c1) _ Hu1)
    as (Hr2 & _ & Hu2 & _).
  fold c2 in Hr2, Hu2.
  assert (Hwf1 : registry_wf (snd c1))
    by now apply onConnectUnisatWallet_registry_wf.
  unfold registry_wf in Hwf1; rewrite Hu1 in Hwf1.
  rewrite remove_listener_absent in Hu2
    by now apply fresh_closure_absent.
  rewrite Hc1, <- app_assoc in Hu2; cbn in Hu2.
  assert (Hn : listener_count (snd c2) = length ls + 2).
  { unfold listener_count; rewrite Hu2, length_app; reflexivity. }
  repeat split; try assumption.
  intros out; now rewrite emit_accountsChanged_count, Hn.
Qed.

(** On a fresh page: connect twice, and one account change runs two
    callbacks. *)
Lemma second_connect_keeps_first_listener_witness :
  let a := {| wa_address := "b1"; wa_publicKey := "pk1"; wa_format := "taproot" |} in
  let w := mounted (no_session "mainnet") in
  let c1 := onConnectUnisatWallet (Resolves (Some [a])) None w in
  let c2 := onConnectUnisatWallet (Resolves (Some [a])) None (snd c1) in
  window_unisat (snd c2) = Some [0; 1] /\
  fst (emit_accountsChanged (Resolves (Some [a])) (snd c2)) = Normal 2.
Proof.
  intros a w c1 c2.
  destruct (second_connect_keeps_first_listener w [] a [] None a [] None
              eq_refl (mounted_registry_wf _))
    as (_ & _ & Hu & _ & Hev).
  split; [exact Hu | exact (Hev _)].
Defined.

(** ** The error path *)

(** [onError], in full. *)
Lemma onError_effect (k : Wallet) (e : Thrown) (w : World) :
  let c := bind (onError k e) (fun _ => ret false) w in
  fst c = Normal false /\
  store (snd c) = disconnectWallet_store (store w) /\
  errorMessage (snd c) = message_or_toString e /\
  console_error (snd c) = (console_error w ++ [(k, e)])%list /\
  window_opened (snd c) =
    (window_opened w ++
       if is_not_installed e then [WALLET_CHROME_EXTENSION_URL k] else [])%list /\
  isOpen (snd c) = isOpen w /\
  adapter_calls (snd c) = adapter_calls w.
Proof.
  js_run; destruct (is_not_installed e); cbn;
    rewrite ?app_nil_r; repeat split; reflexivity.
Qed.

(** On undefined and null the handler throws at the property read, before
    it has shown, logged or cleared anything. *)
Lemma onError_nullish (k : Wallet) (n : Nullish) (w : World) :
  bind (onError k (NullishValue n)) (fun _ => ret false) w =
  (Throw (Value (TypeError_nullish n "message")), w).
Proof. reflexivity. Qed.

Lemma disconnected_store_empty (st : Store) :
  store_empty (disconnectWallet_store st).
Proof. split; reflexivity. Qed.

(** The flows are their attempt followed by the [catch] clause. *)
Lemma onConnectUnisatWallet_catch out readOnly (w : World) :
  onConnectUnisatWallet out readOnly w =
  match unisat_attempt out readOnly w with
  | (Normal b, w') => (Normal b, w')
  | (Throw e, w') => bind (onError UNISAT e) (fun _ => ret false) w'
  end.
Proof.
  unfold onConnectUnisatWallet, unisat_attempt, bind at 1 3.
  destruct (unisat_prologue_normal w) as (l & w1 & -> & _).
  unfold try_catch.
  destruct (unisat_try l out readOnly w1) as [[b|e] w']; reflexivity.
Qed.

Lemma onConnectXverseWallet_catch out (w : World) :
  onConnectXverseWallet out w =
  match xverse_attempt out w with
  | (Normal b, w') => (Normal b, w')
  | (Throw e, w') => bind (onError XVERSE e) (fun _ => ret false) w'
  end.
Proof.
  unfold onConnectXverseWallet, xverse_attempt, try_catch.
  destruct (xverse_try out w) as [[b|e] w']; reflexivity.
Qed.

(** What an attempt leaves untouched: it never logs and never opens a window,
    and closes the modal only when it goes through. *)
Lemma unisat_attempt_frame out readOnly (w : World) :
  let c := unisat_attempt out readOnly w in
  console_error (snd c) = console_error w /\
  window_opened (snd c) = window_opened w /\
  ((exists e, fst c = Throw e) -> isOpen (snd c) = isOpen w) /\
  (forall b, fst c = Normal b -> b = true).
Proof.
  js_run.
  destruct out as [[[|a r]|]|e]; cbn; repeat js_case;
    repeat split; try reflexivity; try congruence;
    intros [e' He']; discriminate.
Qed.

Lemma xverse_attempt_frame out (w : World) :
  let c := xverse_attempt out w in
  console_error (snd c) = console_error w /\
  window_opened (snd c) = window_opened w /\
  window_unisat (snd c) = window_unisat w /\
  ((exists e, fst c = Throw e) -> isOpen (snd c) = isOpen w) /\
  (forall b, fst c = Normal b -> b = true).
Proof.
  js_run.
  destruct out as [[[|a r]|]|e]; cbn; repeat js_case;
    repeat split; try reflexivity; try congruence;
    intros [e' He']; discriminate.
Qed.

(** Why an attempt can fail: the SDK call rejects, it resolves to nothing, the
    wallet object is missing when the listener is registered, or (Xverse) one
    of the two formats is missing. *)
Lemma unisat_attempt_failure_causes out readOnly (w : World) (e : Thrown) :
  fst (unisat_attempt out readOnly w) = Throw e ->
  out = Rejects e \/
  ((out = Resolves None \/ out = Resolves (Some [])) /\ e = EmptyResponse UNISAT) \/
  (window_unisat w = None /\ e = TypeError_undefined "addListener").
Proof.
  unfold unisat_attempt, bind at 1.
  destruct (unisat_prologue_normal w) as (l & w1 & -> & _ & _ & _ & _ & _ & _ & Hu).
  js_run.
  destruct out as [[[|a r]|]|e0]; cbn; intros H.
  - right; left; split; [now right | congruence].
  - destruct (window_unisat w1) eqn:Hw1; cbn in H; [discriminate|].
    right; right; split; [now apply Hu | congruence].
  - right; left; split; [now left | congruence].
  - left; congruence.
Qed.

Lemma xverse_attempt_failure_causes out (w : World) (e : Thrown) :
  fst (xverse_attempt out w) = Throw e ->
  out = Rejects e \/
  ((out = Resolves None \/ out = Resolves (Some [])) /\ e = EmptyResponse XVERSE) \/
  (exists l, out = Resolves (Some l) /\ l <> [] /\
             (find (has_format "p2sh-p2wpkh") l = None \/
              find (has_format "taproot") l = None) /\
             e = IncompleteAddressSet).
Proof.
  js_run.
  destruct out as [[[|a r]|]|e0]; cbn; intros H.
  - right; left; split; [now right | congruence].
  - right; right; exists (a :: r).
    destruct (find (has_format "p2sh-p2wpkh") (a :: r)) eqn:H1;
      [destruct (find (has_format "taproot") (a :: r)) eqn:H2|];
      cbn in H; try discriminate;
      (split; [reflexivity|]; split; [discriminate|]; split; [auto|];
       unfold IncompleteAddressSet; congruence).
  - right; left; split; [now left | congruence].
  - left; congruence.
Qed.

(** A failed attempt, once through the [catch] clause. *)
Lemma unisat_failure_handled out readOnly (w : World) (e : Thrown) :
  fst (unisat_attempt out readOnly w) = Throw e ->
  let c := onConnectUnisatWallet out readOnly w in
  fst c = Normal false /\
  store_empty (store (snd c)) /\
  errorMessage (snd c) = message_or_toString e /\
  console_error (snd c) = (console_error w ++ [(UNISAT, e)])%list /\
  window_opened (snd c) =
    (window_opened w ++
       if is_not_installed e then [WALLET_CHROME_EXTENSION_URL UNISAT] else [])%list /\
  isOpen (snd c) = isOpen w.
Proof.
  intros Hfail c; subst c.
  rewrite onConnectUnisatWallet_catch.
  destruct (unisat_attempt_frame out readOnly w) as (Hlog & Hwin & Hopen & _).
  destruct (unisat_attempt out readOnly w) as [r w']; cbn in *; subst r.
  destruct (onError_effect UNISAT e w') as (Hr & Hs & Hm & Hc & Hw & Ho & _).
  rewrite Hs, Hc, Hw, Ho, Hlog, Hwin, Hopen by eauto.
  repeat split; assumption.
Qed.

Lemma xverse_failure_handled out (w : World) (e : Thrown) :
  fst (xverse_attempt out w) = Throw e ->
  let c := onConnectXverseWallet out w in
  fst c = Normal false /\
  store_empty (store (snd c)) /\
  errorMessage (snd c) = message_or_toString e /\
  console_error (snd c) = (console_error w ++ [(XVERSE, e)])%list /\
  window_opened (snd c) =
    (window_opened w ++
       if is_not_installed e then [WALLET_CHROME_EXTENSION_URL XVERSE] else [])%list /\
  isOpen (snd c) = isOpen w.
Proof.
  intros Hfail c; subst c.
  rewrite onConnectXverseWallet_catch.
  destruct (xverse_attempt_frame out w) as (Hlog & Hwin & _ & Hopen & _).
  destruct (xverse_attempt out w) as [r w']; cbn in *; subst r.
  destruct (onError_effect XVERSE e w') as (Hr & Hs & Hm & Hc & Hw & Ho & _).
  rewrite Hs, Hc, Hw, Ho, Hlog, Hwin, Hopen by eauto.
  repeat split; assumption.
Qed.

(** A connect returns false exactly when its attempt threw something other
    than undefined or null. *)
Lemma unisat_false_iff_failed out readOnly (w : World) :
  fst (onConnectUnisatWallet out readOnly w) = Normal false <->
  exists e : Thrown, fst (unisat_attempt out readOnly w) = Throw e.
Proof.
  split.
  - rewrite onConnectUnisatWallet_catch.
    destruct (unisat_attempt_frame out readOnly w) as (_ & _ & _ & Htrue).
    destruct (unisat_attempt out readOnly w) as [[b|[e|n]] w']; cbn in *.
    + intros H; inversion H; subst.
      specialize (Htrue false eq_refl); discriminate.
    + intros _; now exists e.
    + rewrite onError_nullish; discriminate.
  - intros [e He]; now apply (unisat_failure_handled out readOnly w e).
Qed.

Lemma xverse_false_iff_failed out (w : World) :
  fst (onConnectXverseWallet out w) = Normal false <->
  exists e : Thrown, fst (xverse_attempt out w) = Throw e.
Proof.
  split.
  - rewrite onConnectXverseWallet_catch.
    destruct (xverse_attempt_frame out w) as (_ & _ & _ & _ & Htrue).
    destruct (xverse_attempt out w) as [[b|[e|n]] w']; cbn in *.
    + intros H; inversion H; subst.
      specialize (Htrue false eq_refl); discriminate.
    + intros _; now exists e.
    + rewrite onError_nullish; discriminate.
  - intros [e He]; now apply (xverse_failure_handled out w e).
Qed.






(** ** The identity written by a connect *)


(** An attempt that goes through wrote the identity of the entries it chose. *)
Lemma unisat_attempt_normal out readOnly (w : World) (b : bool) (w' : World) :
  unisat_attempt out readOnly w = (Normal b, w') ->
  exists a r,
    out = Resolves (Some (a :: r)) /\
    window_unisat w <> None /\
    store w' =
      {| address := Some {| ordinals := wa_address a; payments := wa_address a |};
         publicKey :=
           Some {| ordinals := wa_publicKey a; payments := wa_publicKey a |};
         format := Some {| ordinals := wa_format a; payments := wa_format a |};
         wallet := Some UNISAT;
         network := network (store w) |}.
Proof.
  unfold unisat_attempt, bind at 1.
  destruct (unisat_prologue_normal w)
    as (l & w1 & -> & Hst & _ & _ & _ & _ & _ & Hu).
  js_run.
  destruct out as [[[|a r]|]|e]; cbn; try discriminate.
  destruct (window_unisat w1) eqn:Hw1; cbn; [|discriminate].
  intros H; inversion H; subst; clear H.
  exists a, r; cbn; rewrite Hst.
  repeat split.
  intros Hnone; apply Hu in Hnone; congruence.
Qed.

Lemma xverse_attempt_normal out (w : World) (b : bool) (w' : World) :
  xverse_attempt out w = (Normal b, w') ->
  exists l p2sh taproot,
    out = Resolves (Some l) /\
    find (has_format "p2sh-p2wpkh") l = Some p2sh /\
    find (has_format "taproot") l = Some taproot /\
    store w' =
      {| address :=
           Some {| ordinals := wa_address taproot; payments := wa_address p2sh |};
         publicKey :=
           Some {| ordinals := wa_publicKey taproot;
                   payments := wa_publicKey p2sh |};
         format :=
           Some {| ordinals := wa_format taproot; payments := wa_format p2sh |};
         wallet := Some XVERSE;
         network := network (store w) |}.
Proof.
  js_run.
  destruct out as [[[|a r]|]|e]; cbn; try discriminate.
  destruct (find (has_format "p2sh-p2wpkh") (a :: r)) as [p2sh|] eqn:H1;
    [|discriminate].
  destruct (find (has_format "taproot") (a :: r)) as [taproot|] eqn:H2;
    [|discriminate].
  cbn; intros H; inversion H; subst; clear H.
  exists (a :: r), p2sh, taproot; cbn; repeat split; assumption.
Qed.






(** ** The dual-address answer *)

Lemma lacks_format_find (f : string) (l : list WalletAddress) :
  lacks_format f l -> find (has_format f) l = None.
Proof.
  intros Hl.
  destruct (find (has_format f) l) as [a|] eqn:Hf; [|reflexivity].
  apply find_some in Hf as [Hin Hfmt].
  unfold has_format in Hfmt; apply String.eqb_eq in Hfmt.
  now apply Hl in Hin.
Qed.

(** C4, as the claim states it, fails on the empty list: it has neither
    format, but the flow reports it as an empty response, not as an incomplete
    address set. *)
Lemma empty_answer_counterexample :
  let w := mounted (no_session "mainnet") in
  (lacks_format "p2sh-p2wpkh" [] \/ lacks_format "taproot" []) /\
  fst (xverse_attempt (Resolves (Some [])) w) = Throw (EmptyResponse XVERSE) /\
  fst (xverse_attempt (Resolves (Some [])) w) <> Throw IncompleteAddressSet /\
  errorMessage (snd (onConnectXverseWallet (Resolves (Some [])) w))
    = "Xverse via Ordit returned no addresses.".
Proof.
  cbv zeta; split; [left; intros a []|].
  split; [reflexivity|].
  split; [|reflexivity].
  vm_compute; discriminate.
Qed.

(** C4 (amended).  For every Xverse connect whose returned address list is
    not empty and lacks an entry of format "p2sh-p2wpkh" or lacks an entry of
    format "taproot", the connect fails with the IncompleteAddressSet error,
    returns false, records that error's message, populates no identity field
    and leaves the store empty. *)
Theorem incomplete_answer_fails (l : list WalletAddress) (w : World) :
  l <> [] ->
  lacks_format "p2sh-p2wpkh" l \/ lacks_format "taproot" l ->
  let c := onConnectXverseWallet (Resolves (Some l)) w in
  fst (xverse_attempt (Resolves (Some l)) w) = Throw IncompleteAddressSet /\
  fst c = Normal false /\
  populated_count (store (snd c)) = 0 /\
  store_empty (store (snd c)) /\
  errorMessage (snd c)
    = "Xverse via Ordit did not return P2SH or Taproot addresses.".
Proof.
  intros Hne Hlack.
  assert (Hthrow : fst (xverse_attempt (Resolves (Some l)) w)
                   = Throw IncompleteAddressSet).
  { js_run. destruct l as [|a r]; [congruence|]; cbn.
    destruct Hlack as [H|H]; apply lacks_format_find in H; rewrite H;
      [reflexivity|].
    destruct (find (has_format "p2sh-p2wpkh") (a :: r)); reflexivity. }
  intros c.
  destruct (xverse_failure_handled (Resolves (Some l)) w
              IncompleteAddressSet Hthrow)
    as (Hr & Hs & Hm & _).
  fold c in Hr, Hs, Hm.
  repeat split; solve [assumption | apply Hs].
Qed.

(** The example of the spec: a lone "p2sh-p2wpkh" entry, no taproot. *)
Lemma incomplete_answer_fails_witness :
  let l := [{| wa_address := "a1"; wa_publicKey := ""; wa_format := "p2sh-p2wpkh" |}] in
  let w := mounted (no_session "mainnet") in
  let c := onConnectXverseWallet (Resolves (Some l)) w in
  fst (xverse_attempt (Resolves (Some l)) w) = Throw IncompleteAddressSet /\
  fst c = Normal false /\
  populated_count (store (snd c)) = 0 /\
  store_empty (store (snd c)) /\
  errorMessage (snd c)
    = "Xverse via Ordit did not return P2SH or Taproot addresses.".
Proof.
  intros l w.
  apply (incomplete_answer_fails l w).
  - discriminate.
  - right; intros a [<-|[]]; cbn; discriminate.
Defined.

(** ** The single-address answer *)

(** C5.  For every Unisat connect to which the extension (the injected
    wallet object, which is therefore there) returns a non-empty address
    list, the first entry is written to both sides of the identity: payment
    and ordinal address, public key and format are equal and are those of
    that entry, the wallet kind is Unisat, and connect returns true. *)
Theorem first_entry_on_both_sides
  (entry : WalletAddress) (rest : list WalletAddress)
  (readOnly : option bool) (w : World) (ls : list Closure) :
  window_unisat w = Some ls ->
  let c := onConnectUnisatWallet (Resolves (Some (entry :: rest))) readOnly w in
  let st := store (snd c) in
  fst c = Normal true /\
  paymentAddress st = wa_address entry /\
  ordinalAddress st = wa_address entry /\
  paymentPublicKey st = wa_publicKey entry /\
  ordinalPublicKey st = wa_publicKey entry /\
  paymentFormat st = wa_format entry /\
  ordinalFormat st = wa_format entry /\
  wallet st = Some UNISAT.
Proof.
  intros Hu c st.
  destruct (onConnectUnisatWallet_success entry rest readOnly w ls Hu)
    as (Hr & Hs & _).
  subst st; fold c in Hr, Hs; rewrite Hs.
  repeat split; assumption.
Qed.

(** The example of the spec. *)
Lemma first_entry_on_both_sides_witness :
  let entry := {| wa_address := "b1"; wa_publicKey := "pk1"; wa_format := "X" |} in
  let c := onConnectUnisatWallet (Resolves (Some [entry])) None
             (mounted (no_session "mainnet")) in
  let st := store (snd c) in
  fst c = Normal true /\
  paymentAddress st = "b1" /\ ordinalAddress st = "b1" /\
  paymentPublicKey st = "pk1" /\ ordinalPublicKey st = "pk1" /\
  paymentFormat st = "X" /\ ordinalFormat st = "X" /\
  wallet st = Some UNISAT.
Proof.
  intros entry.
  exact (first_entry_on_both_sides entry [] None
           (mounted (no_session "mainnet")) [] eq_refl).
Defined.

(** Without the injected wallet object the same answer cannot be kept: the
    listener registration throws and the flow ends in its error path. *)
Lemma missing_wallet_object_fails
  (entry : WalletAddress) (rest : list WalletAddress)
  (readOnly : option bool) (w : World) :
  window_unisat w = None ->
  let c := onConnectUnisatWallet (Resolves (Some (entry :: rest))) readOnly w in
  fst c = Normal false /\ store_empty (store (snd c)).
Proof.
  intros Hu c.
  assert (Hthrow : fst (unisat_attempt (Resolves (Some (entry :: rest)))
                          readOnly w)
                   = Throw (TypeError_undefined "addListener")).
  { js_run; rewrite Hu; cbn; rewrite Hu; reflexivity. }
  destruct (unisat_failure_handled _ _ _ _ Hthrow) as (Hr & Hs & _).
  split; assumption.
Qed.

(** ** Reconnect on load *)

(** Every Unisat connect asks the SDK exactly once. *)
Lemma onConnectUnisatWallet_adapter_calls out readOnly (w : World) :
  adapter_calls (snd (onConnectUnisatWallet out readOnly w)) =
  (adapter_calls w ++ [GetUnisatAddresses (network (store w)) readOnly])%list.
Proof.
  unfold onConnectUnisatWallet, bind at 1.
  destruct (unisat_prologue_normal w)
    as (l & w1 & -> & Hst & _ & _ & _ & _ & Hcalls & _).
  js_run; rewrite Hst, Hcalls.
  destruct out as [[[|a r]|]|[e|n]]; cbn; repeat js_case; reflexivity.
Qed.

Lemma connectToUnisatWalletOnLoad_ready out (w : World) :
  connectToUnisatWalletOnLoad true out w =
  (Normal tt, snd (onConnectUnisatWallet out (Some true) w)).
Proof. reflexivity. Qed.

Lemma useEffect_onLoad_guarded ready out (w : World) :
  useEffect_onLoad ready out w =
  if reconnect_guard (store w)
  then connectToUnisatWalletOnLoad ready out w
  else (Normal tt, w).
Proof.
  unfold useEffect_onLoad, bind, gets, ret.
  destruct (reconnect_guard (store w)); reflexivity.
Qed.

(** C8.  When the readiness wait times out, the reconnect-on-load invocation
    returns normally (nothing is thrown to the caller), leaves the store
    cleared and disconnected, and never calls the SDK: no readOnly connect is
    attempted.  The mount effect, which starts it for a persisted Unisat
    session, behaves the same. *)
Theorem readiness_timeout_disconnects out (w : World) :
  let c := connectToUnisatWalletOnLoad false out w in
  fst c = Normal tt /\
  store_empty (store (snd c)) /\
  adapter_calls (snd c) = adapter_calls w /\
  (reconnect_guard (store w) = true -> useEffect_onLoad false out w = c).
Proof.
  cbv zeta; repeat split.
  intros Hg; rewrite useEffect_onLoad_guarded, Hg; reflexivity.
Qed.

Lemma readiness_timeout_disconnects_witness :
  let session :=
    {| address := Some {| ordinals := "b1"; payments := "b1" |};
       publicKey := Some {| ordinals := "pk1"; payments := "pk1" |};
       format := Some {| ordinals := "taproot"; payments := "taproot" |};
       wallet := Some UNISAT; network := "mainnet" |} in
  let c := useEffect_onLoad false (Resolves (Some [])) (mounted session) in
  fst c = Normal tt /\
  store_empty (store (snd c)) /\
  adapter_calls (snd c) = [].
Proof.
  intros session.
  destruct (readiness_timeout_disconnects (Resolves (Some []))
              (mounted session)) as (Hr & Hs & Hc & Heff).
  rewrite (Heff eq_refl).
  repeat split; solve [assumption | apply Hs].
Defined.




(** C10, as the claim states it, fails for a partially empty persisted
    identity of a Unisat session: the guard of the mount effect tests the
    three provider values for truthiness, and each is an object whatever its
    fields hold.  With an empty public key on both sides (four of the six
    fields populated) the effect still calls the SDK. *)
Lemma partial_session_counterexample :
  let session :=
    {| address := Some {| ordinals := "b1"; payments := "b1" |};
       publicKey := Some {| ordinals := ""; payments := "" |};
       format := Some {| ordinals := "taproot"; payments := "taproot" |};
       wallet := Some UNISAT; network := "mainnet" |} in
  let entry := {| wa_address := "b1"; wa_publicKey := "pk1"; wa_format := "taproot" |} in
  let w := mounted session in
  let c := useEffect_onLoad true (Resolves (Some [entry])) w in
  populated_count session = 4 /\
  adapter_calls w = [] /\
  adapter_calls (snd c) = [GetUnisatAddresses "mainnet" (Some true)] /\
  store (snd c) <> store w.
Proof.
  cbv zeta; repeat split; try reflexivity.
  vm_compute; discriminate.
Qed.

Lemma reconnect_guard_spec (st : Store) :
  reconnect_guard st = true <->
  wallet st = Some UNISAT /\
  address st <> None /\ publicKey st <> None /\ format st <> None.
Proof.
  unfold reconnect_guard.
  destruct (wallet st) as [[|]|], (address st), (publicKey st), (format st);
    cbn; split; intros H; try discriminate; try (repeat split; congruence);
    destruct H as (H1 & H2 & H3 & H4); congruence.
Qed.

(** C10 (amended).  The silent reconnect-on-load attempt runs exactly when
    the persisted wallet kind is Unisat and the persisted address, public key
    and format values are present (truthy; the fields inside them are not
    looked at): then, once the extension is ready, the SDK is asked once,
    readOnly.  For a persisted Xverse session, for no session, and whenever
    one of the three values is absent, the mount effect performs no adapter
    call and leaves the store, and everything else, unchanged. *)
Theorem reconnect_runs_for_unisat_session ready out (w : World) :
  (reconnect_guard (store w) = true <->
   wallet (store w) = Some UNISAT /\ address (store w) <> None /\
   publicKey (store w) <> None /\ format (store w) <> None) /\
  (reconnect_guard (store w) = true ->
   adapter_calls (snd (useEffect_onLoad true out w)) =
   (adapter_calls w ++ [GetUnisatAddresses (network (store w)) (Some true)])%list) /\
  (reconnect_guard (store w) = false ->
   useEffect_onLoad ready out w = (Normal tt, w)) /\
  (wallet (store w) = Some XVERSE ->
   useEffect_onLoad ready out w = (Normal tt, w)).
Proof.
  split; [apply reconnect_guard_spec|].
  split; [|split].
  - intros Hg.
    rewrite useEffect_onLoad_guarded, Hg, connectToUnisatWalletOnLoad_ready.
    apply onConnectUnisatWallet_adapter_calls.
  - intros Hg; now rewrite useEffect_onLoad_guarded, Hg.
  - intros Hx; rewrite useEffect_onLoad_guarded.
    unfold reconnect_guard; rewrite Hx; reflexivity.
Qed.

Lemma reconnect_runs_for_unisat_session_witness :
  let unisat_session :=
    {| address := Some {| ordinals := "b1"; payments := "b1" |};
       publicKey := Some {| ordinals := "pk1"; payments := "pk1" |};
       format := Some {| ordinals := "taproot"; payments := "taproot" |};
       wallet := Some UNISAT; network := "mainnet" |} in
  let xverse_session :=
    {| address := Some {| ordinals := "a2"; payments := "a1" |};
       publicKey := Some {| ordinals := "pk2"; payments := "pk1" |};
       format := Some {| ordinals := "taproot"; payments := "p2sh-p2wpkh" |};
       wallet := Some XVERSE; network := "mainnet" |} in
  let out := Resolves (Some [{| wa_address := "b1"; wa_publicKey := "pk1";
                                wa_format := "taproot" |}]) in
  adapter_calls (snd (useEffect_onLoad true out (mounted unisat_session)))
    = [GetUnisatAddresses "mainnet" (Some true)] /\
  useEffect_onLoad true out (mounted (no_session "mainnet"))
    = (Normal tt, mounted (no_session "mainnet")) /\
  useEffect_onLoad true out (mounted xverse_session)
    = (Normal tt, mounted xverse_session).
Proof.
  intros unisat_session xverse_session out.
  split; [|split].
  - exact (proj1 (proj2 (reconnect_runs_for_unisat_session true out
                           (mounted unisat_session))) eq_refl).
  - exact (proj1 (proj2 (proj2 (reconnect_runs_for_unisat_session true out
                                  (mounted (no_session "mainnet"))))) eq_refl).
  - exact (proj2 (proj2 (proj2 (reconnect_runs_for_unisat_session true out
                                  (mounted xverse_session)))) eq_refl).
Defined.

(** * Properties of the signing hook *)

Section SignMsg.

Import UseSignMessage.

Variable Val : Type.
Variable truthy : Val -> bool.




(** C6.  A [signMsg] call made while [format] or [publicKey] is empty
    fails with the NoWalletConnected error (its message is recorded in the
    hook, and the error thrown to the caller is the wrapping of it) and the
    signing primitive is never invoked. *)
Theorem sign_without_identity
  (out : SignOutcome) (address message : string) (h : Hook Val) :
  truthy (format (context h)) = false \/
  truthy (publicKey (context h)) = false ->
  let c := signMsg truthy out address message h in
  fst c = Throw (new_Error (toString NoWalletConnected)) /\
  toString NoWalletConnected = "Error: No wallet is connected" /\
  error (snd c) = Some "No wallet is connected" /\
  signMessage_calls (snd c) = signMessage_calls h /\
  context (snd c) = context h.
Proof.
  intros Hempty c; subst c.
  unfold signMsg, signMessage, setError, setIsLoading,
    bind, try_catch, ret, throw, gets, modify; cbn.
  assert (Hor : negb (truthy (format (context h)))
                || negb (truthy (publicKey (context h))) = true).
  { destruct Hempty as [-> | ->]; cbn; [reflexivity | apply orb_true_r]. }
  rewrite Hor; cbn.
  repeat split; reflexivity.
Qed.


(** X12.  When the primitive signs, the signature is returned, the primitive
    was called once with the caller's address and message and the connected
    wallet and network, the context is unchanged, the recorded error is null
    and the busy flag is cleared. *)
Lemma sign_success
  (signature address message : string) (h : Hook Val) :
  truthy (format (context h)) = true ->
  truthy (publicKey (context h)) = true ->
  let c := signMsg truthy (Signed signature) address message h in
  fst c = Normal signature /\
  signMessage_calls (snd c) =
    (signMessage_calls h ++
       [{| sp_address := address; sp_wallet := wallet (context h);
           sp_message := message; sp_network := network (context h) |}])%list /\
  context (snd c) = context h /\
  error (snd c) = None /\
  isLoading (snd c) = false.
Proof.
  intros Hf Hp c; subst c.
  unfold signMsg, signMessage, setError, setIsLoading,
    bind, try_catch, ret, throw, gets, modify; cbn.
  rewrite Hf, Hp; cbn.
  repeat split; reflexivity.
Qed.

End SignMsg.

Lemma sign_without_identity_witness :
  let h := idle_hook "" "" None in
  let c := UseSignMessage.signMsg string_truthy
             (UseSignMessage.Signed "sig") "b1" "hello" h in
  fst c = Throw (new_Error "Error: No wallet is connected") /\
  UseSignMessage.error (snd c) = Some "No wallet is connected" /\
  UseSignMessage.signMessage_calls (snd c) = [].
Proof.
  intros h.
  destruct (sign_without_identity string string_truthy
              (UseSignMessage.Signed "sig") "b1" "hello" h
              (or_introl eq_refl))
    as (Hr & _ & He & Hc & _).
  repeat split; assumption.
Defined.



(** * Further properties of the connect flows *)

(** ** What a connect never does *)

Lemma onConnectXverseWallet_adapter_calls out (w : World) :
  adapter_calls (snd (onConnectXverseWallet out w)) =
  (adapter_calls w ++ [GetXverseAddresses (network (store w))])%list.
Proof.
  js_run.
  destruct out as [[[|a r]|]|[e|n]]; cbn; repeat js_case; reflexivity.
Qed.

(** The listeners of an event run one after the other. *)
Lemma run_listeners_cons out (l : Closure) (ls : list Closure) (w : World) :
  run_listeners out (l :: ls) w =
  run_listeners out ls (snd (onConnectUnisatWallet out None w)).
Proof. reflexivity. Qed.

Lemma emit_accountsChanged_snd out (w : World) :
  snd (emit_accountsChanged out w) =
  match window_unisat w with
  | Some ls => snd (run_listeners out ls w)
  | None => w
  end.
Proof.
  unfold emit_accountsChanged.
  destruct (window_unisat w) as [ls|]; [|reflexivity].
  unfold bind, ret.
  pose proof (run_listeners_normal out ls w) as Hn.
  destruct (run_listeners out ls w) as [c w1]; cbn in Hn; now subst c.
Qed.



(** X2.  A connect opens a browser window in one case only: the SDK call
    was rejected with a BrowserWalletNotInstalledError, and then it opens
    the download page of the wallet that was asked for, once.  A successful
    connect, an empty answer, an incomplete answer, a cancelled request and a
    missing wallet object open nothing. *)
Theorem install_page_only_when_not_installed out readOnly (w : World) :
  window_opened (snd (onConnectUnisatWallet out readOnly w)) =
  (window_opened w ++
     match out with
     | Rejects e =>
         if is_not_installed e then ["https://unisat.io/download"] else []
     | Resolves _ => []
     end)%list /\
  window_opened (snd (onConnectXverseWallet out w)) =
  (window_opened w ++
     match out with
     | Rejects e =>
         if is_not_installed e then ["https://www.xverse.app/download"] else []
     | Resolves _ => []
     end)%list.
Proof.
  split.
  - unfold onConnectUnisatWallet, bind at 1.
    destruct (unisat_prologue_normal w)
      as (l & w1 & -> & _ & _ & _ & Hwin & _).
    js_run.
    destruct out as [[[|a r]|]|[e|n]]; cbn; repeat js_case;
      rewrite ?Hwin, ?app_nil_r; reflexivity.
  - js_run.
    destruct out as [[[|a r]|]|[e|n]]; cbn; repeat js_case;
      rewrite ?app_nil_r; reflexivity.
Qed.

(** X3.  Every connect invocation asks the SDK exactly once: Unisat with the network of the store and the readOnly flag it
    was given, Xverse with the network of the store.  No outcome leads to a
    second query or to none. *)
Theorem connect_queries_sdk_once out readOnly (w : World) :
  adapter_calls (snd (onConnectUnisatWallet out readOnly w)) =
  (adapter_calls w ++ [GetUnisatAddresses (network (store w)) readOnly])%list /\
  adapter_calls (snd (onConnectXverseWallet out w)) =
  (adapter_calls w ++ [GetXverseAddresses (network (store w))])%list.
Proof.
  split.
  - apply onConnectUnisatWallet_adapter_calls.
  - apply onConnectXverseWallet_adapter_calls.
Qed.

(** ** Answers of the SDK *)

(** X5.  An answer without addresses, null or the empty list, makes either
    connect fail with its own "returned no addresses" message: the connect
    returns false, the store is empty, the message is shown, the error is
    logged, and the modal stays as it was. *)
Theorem empty_answer_reports_no_addresses
  (r : option (list WalletAddress)) readOnly (w : World) :
  r = None \/ r = Some [] ->
  (let c := onConnectUnisatWallet (Resolves r) readOnly w in
   fst c = Normal false /\
   store_empty (store (snd c)) /\
   errorMessage (snd c) = "Unisat via Ordit returned no addresses." /\
   console_error (snd c) =
     (console_error w ++ [(UNISAT, EmptyResponse UNISAT)])%list /\
   isOpen (snd c) = isOpen w) /\
  (let c := onConnectXverseWallet (Resolves r) w in
   fst c = Normal false /\
   store_empty (store (snd c)) /\
   errorMessage (snd c) = "Xverse via Ordit returned no addresses." /\
   console_error (snd c) =
     (console_error w ++ [(XVERSE, EmptyResponse XVERSE)])%list /\
   isOpen (snd c) = isOpen w).
Proof.
  intros Hr.
  assert (Hu : fst (unisat_attempt (Resolves r) readOnly w)
               = Throw (EmptyResponse UNISAT)).
  { unfold unisat_attempt, bind at 1.
    destruct (unisat_prologue_normal w) as (l & w1 & -> & _).
    js_run; destruct Hr as [-> | ->]; reflexivity. }
  assert (Hx : fst (xverse_attempt (Resolves r) w)
               = Throw (EmptyResponse XVERSE)).
  { js_run; destruct Hr as [-> | ->]; reflexivity. }
  split; intros c.
  - destruct (unisat_failure_handled _ _ _ _ Hu)
      as (H1 & H2 & H3 & H4 & _ & H6).
    repeat split; solve [assumption | apply H2].
  - destruct (xverse_failure_handled _ _ _ Hx)
      as (H1 & H2 & H3 & H4 & _ & H6).
    repeat split; solve [assumption | apply H2].
Qed.

Lemma empty_answer_reports_no_addresses_witness :
  let session := unisat_identity
                   {| wa_address := "b1"; wa_publicKey := "pk1";
                      wa_format := "taproot" |} "mainnet" in
  let c := onConnectUnisatWallet (Resolves (Some [])) None (mounted session) in
  fst c = Normal false /\
  store_empty (store (snd c)) /\
  errorMessage (snd c) = "Unisat via Ordit returned no addresses.".
Proof.
  intros session.
  destruct (empty_answer_reports_no_addresses (Some []) None (mounted session)
              (or_intror eq_refl))
    as [(H1 & H2 & H3 & _) _].
  repeat split; solve [assumption | apply H2].
Defined.

Lemma find_first (f : WalletAddress -> bool)
  (pre : list WalletAddress) (a : WalletAddress) (post : list WalletAddress) :
  (forall x, In x pre -> f x = false) ->
  f a = true ->
  find f (pre ++ a :: post) = Some a.
Proof.
  induction pre as [|x pre IH]; cbn [app]; intros Hpre Ha.
  - change (find f (a :: post)) with (if f a then Some a else find f post).
    now rewrite Ha.
  - change (find f (x :: pre ++ a :: post)%list)
      with (if f x then Some x else find f (pre ++ a :: post)%list).
    rewrite (Hpre x (or_introl eq_refl)).
    apply IH; [|exact Ha].
    intros y Hy; apply Hpre; now right.
Qed.

Lemma lacks_format_has_format (f : string) (l : list WalletAddress) :
  lacks_format f l -> forall x, In x l -> has_format f x = false.
Proof.
  intros Hl x Hx; unfold has_format.
  destruct (String.eqb_spec (wa_format x) f) as [Heq|]; [|reflexivity].
  now apply Hl in Hx.
Qed.

(** X6.  An Xverse connect keeps, for each of the two formats, the first
    entry of the answer that has it: later entries of the same format and
    entries of any other format are ignored, and the order of the two kept
    entries in the answer does not matter.  The payment side of the identity
    comes from the "p2sh-p2wpkh" entry, the ordinal side from the "taproot"
    entry; the wallet kind is Xverse, the error message is reset, the modal
    is closed and the connect returns true. *)
Theorem xverse_keeps_first_of_each_format
  (l pre1 post1 pre2 post2 : list WalletAddress) (p2sh taproot : WalletAddress)
  (w : World) :
  l = (pre1 ++ p2sh :: post1)%list ->
  lacks_format "p2sh-p2wpkh" pre1 ->
  wa_format p2sh = "p2sh-p2wpkh" ->
  l = (pre2 ++ taproot :: post2)%list ->
  lacks_format "taproot" pre2 ->
  wa_format taproot = "taproot" ->
  let c := onConnectXverseWallet (Resolves (Some l)) w in
  fst c = Normal true /\
  store (snd c) = xverse_identity p2sh taproot (network (store w)) /\
  errorMessage (snd c) = "" /\
  isOpen (snd c) = false /\
  console_error (snd c) = console_error w.
Proof.
  intros Hl1 Hpre1 Hf1 Hl2 Hpre2 Hf2.
  assert (H1 : find (has_format "p2sh-p2wpkh") l = Some p2sh).
  { rewrite Hl1; apply find_first.
    - now apply lacks_format_has_format.
    - unfold has_format; rewrite Hf1; reflexivity. }
  assert (H2 : find (has_format "taproot") l = Some taproot).
  { rewrite Hl2; apply find_first.
    - now apply lacks_format_has_format.
    - unfold has_format; rewrite Hf2; reflexivity. }
  js_run.
  destruct l as [|a r]; [destruct pre1; discriminate|].
  cbn; rewrite H1, H2; cbn.
  repeat split; reflexivity.
Qed.

(** Two taproot entries and a leading entry of another format: the first
    taproot entry is the one kept. *)
Lemma xverse_keeps_first_of_each_format_witness :
  let other := {| wa_address := "s1"; wa_publicKey := "pk0"; wa_format := "segwit" |} in
  let t1 := {| wa_address := "t1"; wa_publicKey := "pk1"; wa_format := "taproot" |} in
  let p := {| wa_address := "p1"; wa_publicKey := "pk2"; wa_format := "p2sh-p2wpkh" |} in
  let t2 := {| wa_address := "t2"; wa_publicKey := "pk3"; wa_format := "taproot" |} in
  let c := onConnectXverseWallet (Resolves (Some [other; t1; p; t2]))
             (mounted (no_session "mainnet")) in
  fst c = Normal true /\
  ordinalAddress (store (snd c)) = "t1" /\
  paymentAddress (store (snd c)) = "p1".
Proof.
  intros other t1 p t2.
  assert (Hp : lacks_format "p2sh-p2wpkh" [other; t1]).
  { intros a [<-|[<-|[]]]; cbn; discriminate. }
  assert (Ht : lacks_format "taproot" [other]).
  { intros a [<-|[]]; cbn; discriminate. }
  destruct (xverse_keeps_first_of_each_format
              [other; t1; p; t2] [other; t1] [t2] [other] [p; t2] p t1
              (mounted (no_session "mainnet"))
              eq_refl Hp eq_refl eq_refl Ht eq_refl)
    as (Hr & Hs & _).
  split; [exact Hr|].
  rewrite Hs; split; reflexivity.
Defined.

(** ** The listener registry over time *)

(** X7.  A connect that succeeds deregisters nothing.  A successful Unisat
    connect leaves the registered listeners in place and in order and adds
    its own new closure behind them; a successful Xverse connect does not
    touch the registry of the Unisat wallet object, so a Unisat listener
    outlives a switch to Xverse. *)
Theorem successful_connect_keeps_listeners
  a r readOnly (l : list WalletAddress) (p2sh taproot : WalletAddress)
  (w : World) (ls : list Closure) :
  registry_wf w ->
  window_unisat w = Some ls ->
  window_unisat
    (snd (onConnectUnisatWallet (Resolves (Some (a :: r))) readOnly w))
    = Some (ls ++ [closures w])%list /\
  (find (has_format "p2sh-p2wpkh") l = Some p2sh ->
   find (has_format "taproot") l = Some taproot ->
   fst (onConnectXverseWallet (Resolves (Some l)) w) = Normal true /\
   window_unisat (snd (onConnectXverseWallet (Resolves (Some l)) w))
     = Some ls).
Proof.
  intros Hwf Hu; split.
  - destruct (onConnectUnisatWallet_success a r readOnly w ls Hu)
      as (_ & _ & Hl & _).
    rewrite Hl, remove_listener_absent; [reflexivity|].
    unfold registry_wf in Hwf; rewrite Hu in Hwf.
    now apply fresh_closure_absent.
  - intros H1 H2; js_run.
    destruct l as [|x l]; [discriminate H1|].
    cbn; rewrite H1, H2; cbn.
    split; [reflexivity | exact Hu].
Qed.

Lemma successful_connect_keeps_listeners_witness :
  let a := {| wa_address := "b1"; wa_publicKey := "pk1"; wa_format := "taproot" |} in
  let p := {| wa_address := "p1"; wa_publicKey := "pk2"; wa_format := "p2sh-p2wpkh" |} in
  let w1 := snd (onConnectUnisatWallet (Resolves (Some [a])) None
                   (mounted (no_session "mainnet"))) in
  window_unisat w1 = Some [0] /\
  window_unisat (snd (onConnectUnisatWallet (Resolves (Some [a])) None w1))
    = Some [0; 1] /\
  window_unisat (snd (onConnectXverseWallet (Resolves (Some [p; a])) w1))
    = Some [0].
Proof.
  intros a p w1.
  assert (Hwf : registry_wf w1).
  { apply onConnectUnisatWallet_registry_wf, mounted_registry_wf. }
  split; [reflexivity|].
  destruct (successful_connect_keeps_listeners a [] None [p; a] p a w1 [0]
              Hwf eq_refl) as [Hu Hx].
  split; [exact Hu | exact (proj2 (Hx eq_refl eq_refl))].
Defined.

(** A successful Unisat connect in a world whose registry is in order. *)
Lemma onConnectUnisatWallet_success_wf a r readOnly (w : World) ls :
  registry_wf w ->
  window_unisat w = Some ls ->
  let w1 := snd (onConnectUnisatWallet (Resolves (Some (a :: r))) readOnly w) in
  registry_wf w1 /\
  window_unisat w1 = Some (ls ++ [closures w])%list /\
  closures w1 = S (closures w) /\
  store w1 = unisat_identity a (network (store w)) /\
  errorMessage w1 = "" /\
  isOpen w1 = false.
Proof.
  intros Hwf Hu w1.
  destruct (onConnectUnisatWallet_success a r readOnly w ls Hu)
    as (_ & Hs & Hl & Hc & He & Ho & _).
  fold w1 in Hs, Hl, Hc, He, Ho.
  rewrite remove_listener_absent in Hl.
  - repeat split; try assumption.
    now apply onConnectUnisatWallet_registry_wf.
  - unfold registry_wf in Hwf; rewrite Hu in Hwf.
    now apply fresh_closure_absent.
Qed.

Lemma seq_snoc_shift (n len : nat) (cur : list nat) :
  ((cur ++ [n]) ++ seq (S n) len)%list = (cur ++ seq n (S len))%list.
Proof. now rewrite <- app_assoc. Qed.

Lemma repeat_snoc_shift {A : Type} (x : A) (n : nat) (old : list A) :
  ((old ++ [x]) ++ repeat x n)%list = (old ++ repeat x (S n))%list.
Proof. now rewrite <- app_assoc. Qed.

(** The callbacks of one event, when each of them connects successfully. *)
Lemma run_listeners_success a r (snapshot : list Closure) :
  forall (w : World) (cur : list Closure),
    registry_wf w ->
    window_unisat w = Some cur ->
    let w' := snd (run_listeners (Resolves (Some (a :: r))) snapshot w) in
    window_unisat w' =
      Some (cur ++ seq (closures w) (length snapshot))%list /\
    adapter_calls w' =
      (adapter_calls w ++
         repeat (GetUnisatAddresses (network (store w)) None)
                (length snapshot))%list /\
    (snapshot <> [] -> store w' = unisat_identity a (network (store w))).
Proof.
  induction snapshot as [|l snapshot IH]; intros w cur Hwf Hu w'.
  - subst w'; cbn; rewrite !app_nil_r; repeat split; [assumption | congruence].
  - subst w'; rewrite run_listeners_cons.
    destruct (onConnectUnisatWallet_success_wf a r None w cur Hwf Hu)
      as (Hwf1 & Hu1 & Hc1 & Hs1 & _).
    pose proof (onConnectUnisatWallet_adapter_calls
                  (Resolves (Some (a :: r))) None w) as Hcalls1.
    set (w1 := snd (onConnectUnisatWallet (Resolves (Some (a :: r))) None w))
      in *.
    assert (Hnet : network (store w1) = network (store w))
      by now rewrite Hs1.
    destruct (IH w1 (cur ++ [closures w])%list Hwf1 Hu1) as (Hu' & Hc' & Hs').
    rewrite Hc1, Hnet, Hcalls1 in *.
    cbn [length].
    rewrite <- seq_snoc_shift, <- repeat_snoc_shift.
    repeat split; try assumption.
    intros _.
    destruct snapshot as [|l' snapshot]; [exact Hs1|].
    apply Hs'; discriminate.
Qed.

(** X8.  An account-change event doubles the registered listeners when the
    wallet answers with an address: each of the n listeners runs one full,
    not readOnly, connect (n SDK queries for one event), and each of these
    registers one more listener without removing any, so 2n are registered
    afterwards. *)
Theorem account_change_doubles_listeners
  a r (w : World) (ls : list Closure) :
  registry_wf w ->
  window_unisat w = Some ls ->
  let c := emit_accountsChanged (Resolves (Some (a :: r))) w in
  fst c = Normal (length ls) /\
  window_unisat (snd c) = Some (ls ++ seq (closures w) (length ls))%list /\
  listener_count (snd c) = 2 * length ls /\
  adapter_calls (snd c) =
    (adapter_calls w ++
       repeat (GetUnisatAddresses (network (store w)) None) (length ls))%list.
Proof.
  intros Hwf Hu c; subst c.
  rewrite emit_accountsChanged_count, emit_accountsChanged_snd.
  unfold listener_count at 1; rewrite Hu.
  destruct (run_listeners_success a r ls w ls Hwf Hu) as (Hu' & Hc' & _).
  unfold listener_count; rewrite Hu', Hc', length_app, length_seq.
  repeat split; lia.
Qed.

(** Connect twice (two listeners, as the flow leaves them), then one event:
    two callbacks, two queries, four listeners. *)
Lemma account_change_doubles_listeners_witness :
  let a := {| wa_address := "b1"; wa_publicKey := "pk1"; wa_format := "taproot" |} in
  let w1 := snd (onConnectUnisatWallet (Resolves (Some [a])) None
                   (mounted (no_session "mainnet"))) in
  let w2 := snd (onConnectUnisatWallet (Resolves (Some [a])) None w1) in
  let c := emit_accountsChanged (Resolves (Some [a])) w2 in
  fst c = Normal 2 /\
  window_unisat (snd c) = Some [0; 1; 2; 3] /\
  listener_count (snd c) = 4.
Proof.
  intros a w1 w2.
  assert (Hwf : registry_wf w2).
  { do 2 apply onConnectUnisatWallet_registry_wf. apply mounted_registry_wf. }
  destruct (account_change_doubles_listeners a [] w2 [0; 1] Hwf eq_refl)
    as (Hr & Hu & Hn & _).
  repeat split; assumption.
Defined.

Lemma run_listeners_store a r (snapshot : list Closure) :
  forall (w : World) (cur : list Closure),
    snapshot <> [] ->
    window_unisat w = Some cur ->
    store (snd (run_listeners (Resolves (Some (a :: r))) snapshot w))
    = unisat_identity a (network (store w)).
Proof.
  induction snapshot as [|l snapshot IH]; intros w cur Hne Hu;
    [congruence|].
  rewrite run_listeners_cons.
  destruct (onConnectUnisatWallet_success a r None w cur Hu)
    as (_ & Hs & Hl & _).
  destruct snapshot as [|l' snapshot]; [exact Hs|].
  erewrite IH; [|discriminate|exact Hl].
  now rewrite Hs.
Qed.

(** X9.  An account-change event overrides whatever session there is.  As
    soon as one listener is registered and the Unisat SDK answers with an
    address, the event leaves the store with a Unisat session made of the
    first entry of that answer, also when the session before the event was
    an Xverse one or none. *)
Theorem account_change_overrides_session
  a r (w : World) (l : Closure) (ls : list Closure) :
  window_unisat w = Some (l :: ls) ->
  store (snd (emit_accountsChanged (Resolves (Some (a :: r))) w))
  = unisat_identity a (network (store w)).
Proof.
  intros Hu.
  rewrite emit_accountsChanged_snd, Hu.
  apply (run_listeners_store a r (l :: ls) w (l :: ls)); [discriminate|exact Hu].
Qed.

(** Connect Unisat, switch to Xverse, then the Unisat account changes: the
    session is a Unisat one again. *)
Lemma account_change_overrides_session_witness :
  let b1 := {| wa_address := "b1"; wa_publicKey := "pk1"; wa_format := "taproot" |} in
  let b2 := {| wa_address := "b2"; wa_publicKey := "pk2"; wa_format := "taproot" |} in
  let p := {| wa_address := "p1"; wa_publicKey := "pk3"; wa_format := "p2sh-p2wpkh" |} in
  let t := {| wa_address := "t1"; wa_publicKey := "pk4"; wa_format := "taproot" |} in
  let w1 := snd (onConnectUnisatWallet (Resolves (Some [b1])) None
                   (mounted (no_session "mainnet"))) in
  let w2 := snd (onConnectXverseWallet (Resolves (Some [p; t])) w1) in
  wallet (store w2) = Some XVERSE /\
  store (snd (emit_accountsChanged (Resolves (Some [b2])) w2))
  = unisat_identity b2 "mainnet".
Proof.
  intros b1 b2 p t w1 w2.
  split; [reflexivity|].
  exact (account_change_overrides_session b2 [] w2 0 [] eq_refl).
Defined.

(** X10.  Reconnect on load re-arms the session.  With a persisted Unisat
    session, an extension that became ready and the wallet object in place,
    a non-empty answer refreshes the store from its first entry, registers
    one account-change listener behind those already there, and the SDK was
    asked once, readOnly; the error message is empty and the modal closed. *)
Theorem reconnect_on_load_rearms
  a r (w : World) (ls : list Closure) :
  reconnect_guard (store w) = true ->
  registry_wf w ->
  window_unisat w = Some ls ->
  let c := useEffect_onLoad true (Resolves (Some (a :: r))) w in
  fst c = Normal tt /\
  store (snd c) = unisat_identity a (network (store w)) /\
  window_unisat (snd c) = Some (ls ++ [closures w])%list /\
  adapter_calls (snd c) =
    (adapter_calls w ++ [GetUnisatAddresses (network (store w)) (Some true)])%list /\
  errorMessage (snd c) = "" /\
  isOpen (snd c) = false.
Proof.
  intros Hg Hwf Hu c; subst c.
  rewrite useEffect_onLoad_guarded, Hg, connectToUnisatWalletOnLoad_ready.
  destruct (onConnectUnisatWallet_success_wf a r (Some true) w ls Hwf Hu)
    as (_ & Hu1 & _ & Hs & He & Ho).
  cbn [fst snd].
  repeat split; try assumption.
  apply onConnectUnisatWallet_adapter_calls.
Qed.

Lemma reconnect_on_load_rearms_witness :
  let old := {| wa_address := "b1"; wa_publicKey := "pk1"; wa_format := "taproot" |} in
  let now := {| wa_address := "b2"; wa_publicKey := "pk2"; wa_format := "taproot" |} in
  let c := useEffect_onLoad true (Resolves (Some [now]))
             (mounted (unisat_identity old "mainnet")) in
  store (snd c) = unisat_identity now "mainnet" /\
  window_unisat (snd c) = Some [0] /\
  adapter_calls (snd c) = [GetUnisatAddresses "mainnet" (Some true)].
Proof.
  intros old now.
  destruct (reconnect_on_load_rearms now [] (mounted (unisat_identity old "mainnet"))
              [] eq_refl (mounted_registry_wf _) eq_refl)
    as (_ & Hs & Hu & Hc & _).
  repeat split; assumption.
Defined.

(** ** What is offered to the user *)

(** X11.  Which wallets the panel offers depends on the device only through
    [isMobile] and [disableMobile]: a desktop browser is offered Unisat and
    Xverse, in that order, whatever [disableMobile] says; a mobile browser is
    offered Xverse alone, or nothing when [disableMobile] is set, and the
    title says "Unsupported device" exactly when nothing is offered.  No
    button is ever rendered disabled: the Unisat button, the only one given
    [isDisabled], exists only where that prop is false.  The error message
    of the component is shown in every case. *)
Theorem panel_offers (disableMobile : option bool) (isMobile : bool) (w : World) :
  let p := render_panel disableMobile isMobile w in
  offered_wallets p =
    (if isMobile
     then if not_disableMobile disableMobile then [XVERSE] else []
     else [UNISAT; XVERSE]) /\
  (panel_title p = "Unsupported device" <-> offered_wallets p = []) /\
  (forall b, In b (panel_buttons p) -> wb_isDisabled b <> Some true) /\
  panel_error_message p = errorMessage w.
Proof.
  destruct disableMobile as [[|]|], isMobile; cbn;
    (split; [reflexivity|]);
    (split; [split; intros H; solve [reflexivity | discriminate]|]);
    (split; [|reflexivity]);
    intros b Hb; cbn in Hb;
    repeat (destruct Hb as [<-|Hb]; [cbn; discriminate|]);
    destruct Hb.
Qed.

Lemma panel_offers_witness :
  let w := mounted (no_session "mainnet") in
  offered_wallets (render_panel None false w) = [UNISAT; XVERSE] /\
  offered_wallets (render_panel (Some true) false w) = [UNISAT; XVERSE] /\
  offered_wallets (render_panel None true w) = [XVERSE] /\
  offered_wallets (render_panel (Some true) true w) = [] /\
  (forall b, In b (panel_buttons (render_panel None false w)) ->
             wb_isDisabled b <> Some true).
Proof.
  intros w.
  split; [exact (proj1 (panel_offers None false w))|].
  split; [exact (proj1 (panel_offers (Some true) false w))|].
  split; [exact (proj1 (panel_offers None true w))|].
  split; [exact (proj1 (panel_offers (Some true) true w))|].
  exact (proj1 (proj2 (proj2 (panel_offers None false w)))).
Defined.

(** * Further properties of the signing hook *)

Lemma sign_success_witness :
  let h := idle_hook "pk1" "taproot" (Some UNISAT) in
  let c := UseSignMessage.signMsg string_truthy
             (UseSignMessage.Signed "sig") "b1" "hello" h in
  fst c = Normal "sig" /\
  UseSignMessage.signMessage_calls (snd c) =
    [{| UseSignMessage.sp_address := "b1";
        UseSignMessage.sp_wallet := Some UNISAT;
        UseSignMessage.sp_message := "hello";
        UseSignMessage.sp_network := "mainnet" |}] /\
  UseSignMessage.error (snd c) = None.
Proof.
  intros h.
  destruct (sign_success string string_truthy "sig" "b1" "hello" h
              eq_refl eq_refl)
    as (Hr & Hc & _ & He & _).
  repeat split; assumption.
Defined.

Section SignMsgSettles.

Import UseSignMessage.

Variable Val : Type.
Variable truthy : Val -> bool.

(** X13.  A [signMsg] call settles the hook in every case but one.  The
    context is always left as it was, and the primitive has been asked
    exactly once when both [format] and [publicKey] are present and not at
    all otherwise, with the caller's address and message and the wallet and
    network of the context.  The busy flag is cleared on the way out of
    success and of failure, except when the primitive rejects with undefined
    or null: the catch clause then throws at [e.message], the caller gets
    that TypeError, no error is recorded and the busy flag stays set.  A
    signature reaches the caller only when the identity was present and the
    primitive produced that very signature, and then the recorded error is
    null, also after an earlier failure. *)
Theorem sign_settles_unless_nullish
  (out : SignOutcome) (address message : string) (h : Hook Val) :
  let c := signMsg truthy out address message h in
  context (snd c) = context h /\
  signMessage_calls (snd c) =
    (signMessage_calls h ++
       if truthy (format (context h)) && truthy (publicKey (context h))
       then [{| sp_address := address; sp_wallet := wallet (context h);
                sp_message := message; sp_network := network (context h) |}]
       else [])%list /\
  (isLoading (snd c) = true <->
   truthy (format (context h)) = true /\
   truthy (publicKey (context h)) = true /\
   exists n, out = Failed (NullishValue n)) /\
  (forall n,
     truthy (format (context h)) = true ->
     truthy (publicKey (context h)) = true ->
     out = Failed (NullishValue n) ->
     fst c = Throw (Value (TypeError_nullish n "message")) /\
     error (snd c) = None) /\
  (forall s, fst c = Normal s ->
             out = Signed s /\
             truthy (format (context h)) = true /\
             truthy (publicKey (context h)) = true /\
             error (snd c) = None).
Proof.
  intros c; subst c.
  unfold signMsg, signMessage, setError, setIsLoading,
    bind, try_catch, ret, throw, gets, modify; cbn.
  destruct (truthy (format (context h))), (truthy (publicKey (context h)));
    cbn; try (destruct out as [sig|[e|n]]; cbn);
    rewrite ?app_nil_r;
    (split; [reflexivity|]); (split; [reflexivity|]);
    (split; [split; [discriminate || (intros _; repeat split; eauto)
                    | intros (H1 & H2 & n' & H3); congruence]|]);
    (split; [intros n' H1 H2 H3; try discriminate;
             injection H3 as <-; split; reflexivity|]);
    intros s Hs; try discriminate;
    inversion Hs; subst; repeat split; reflexivity.
Qed.

End SignMsgSettles.

(** A hook that still shows the error of an earlier failure signs; and a
    primitive that rejects with undefined leaves the hook busy. *)
Lemma sign_settles_unless_nullish_witness :
  let h := {| UseSignMessage.context :=
                UseSignMessage.context (idle_hook "pk1" "taproot" (Some XVERSE));
              UseSignMessage.error := Some "User rejected the request.";
              UseSignMessage.isLoading := false;
              UseSignMessage.signMessage_calls := [] |} in
  let c := UseSignMessage.signMsg string_truthy
             (UseSignMessage.Signed "sig") "p1" "hello" h in
  let c' := UseSignMessage.signMsg string_truthy
              (UseSignMessage.Failed (NullishValue js_undefined))
              "p1" "hello" h in
  (fst c = Normal "sig" /\ UseSignMessage.error (snd c) = None) /\
  (fst c' = Throw (Value (TypeError_undefined "message")) /\
   UseSignMessage.isLoading (snd c') = true).
Proof.
  intros h c c'.
  destruct (sign_settles_unless_nullish string string_truthy
              (UseSignMessage.Signed "sig") "p1" "hello" h)
    as (_ & _ & _ & _ & Hret).
  destruct (Hret "sig" eq_refl) as (_ & _ & _ & He).
  destruct (sign_settles_unless_nullish string string_truthy
              (UseSignMessage.Failed (NullishValue js_undefined))
              "p1" "hello" h)
    as (_ & _ & Hbusy & Hnull & _).
  destruct (Hnull js_undefined eq_refl eq_refl eq_refl) as (Hthrow & _).
  split; [split; [reflexivity | exact He]|].
  split; [exact Hthrow|].
  apply Hbusy; repeat split; now exists js_undefined.
Defined.

(** * The result of a connect and the state it leaves *)

(** X14.  The boolean a connect returns tells what it left behind.  True:
    the store holds a session of the wallet kind that was asked for, the
    error message is empty (an earlier one is gone), the modal is closed and
    nothing was logged.  False: no wallet is connected, exactly one error was
    logged, and the modal is as it was, so an open modal stays open to show
    the message. *)
Theorem connect_result_tells_session out readOnly (w : World) :
  (let c := onConnectUnisatWallet out readOnly w in
   (fst c = Normal true ->
    wallet (store (snd c)) = Some UNISAT /\
    errorMessage (snd c) = "" /\
    isOpen (snd c) = false /\
    console_error (snd c) = console_error w) /\
   (fst c = Normal false ->
    wallet (store (snd c)) = None /\
    isOpen (snd c) = isOpen w /\
    length (console_error (snd c)) = S (length (console_error w)))) /\
  (let c := onConnectXverseWallet out w in
   (fst c = Normal true ->
    wallet (store (snd c)) = Some XVERSE /\
    errorMessage (snd c) = "" /\
    isOpen (snd c) = false /\
    console_error (snd c) = console_error w) /\
   (fst c = Normal false ->
    wallet (store (snd c)) = None /\
    isOpen (snd c) = isOpen w /\
    length (console_error (snd c)) = S (length (console_error w)))).
Proof.
  split.
  - unfold onConnectUnisatWallet, bind at 1 2 3 4 5 6 7 8 9.
    destruct (unisat_prologue_normal w)
      as (l & w1 & -> & _ & _ & Ho & _ & Hc & _).
    js_run.
    destruct out as [[[|a r]|]|[e|n]]; cbn; repeat js_case;
      (split; intros H; try discriminate H);
      rewrite ?Ho, ?Hc, ?length_app; cbn;
      repeat split; try reflexivity; lia.
  - js_run.
    destruct out as [[[|a r]|]|[e|n]]; cbn; repeat js_case;
      (split; intros H; try discriminate H);
      rewrite ?length_app; cbn;
      repeat split; try reflexivity; lia.
Qed.

Lemma connect_result_tells_session_witness :
  let a := {| wa_address := "b1"; wa_publicKey := "pk1"; wa_format := "taproot" |} in
  let w := with_isOpen true
             (with_errorMessage "Request canceled by user."
                (mounted (no_session "mainnet"))) in
  let ok := onConnectUnisatWallet (Resolves (Some [a])) None w in
  let ko := onConnectXverseWallet (Resolves (Some [a])) w in
  (errorMessage (snd ok) = "" /\ isOpen (snd ok) = false) /\
  (wallet (store (snd ko)) = None /\ isOpen (snd ko) = true).
Proof.
  intros a w ok ko.
  destruct (connect_result_tells_session (Resolves (Some [a])) None w)
    as [[Hok _] [_ Hko]].
  destruct (Hok eq_refl) as (_ & He & Ho & _).
  destruct (Hko eq_refl) as (Hw & Ho' & _).
  repeat split; assumption.
Defined.





